(** * Greengrass core SDK stub library (stubs/src/greengrasssdk.c)

    A shallow embedding of the C stub that stands in for the AWS Greengrass
    core SDK, together with the types of [shared/greengrasssdk.h], and the
    properties of the interface checked against it.

    Every function of the stub has the body [return GGE_SUCCESS;].  A C call
    is modelled as a computation over the caller's memory that either returns
    a value and a memory, or ends the process; both carry the externally
    visible events the call performed. *)

From stdpp Require Import base gmap strings list.
From Stdlib Require Import ZArith.

Local Open Scope Z_scope.

(** ** Enumerations of greengrasssdk.h *)

Inductive gg_error : Set :=
| GGE_SUCCESS
| GGE_OUT_OF_MEMORY
| GGE_INVALID_PARAMETER
| GGE_INVALID_STATE
| GGE_INTERNAL_FAILURE
| GGE_TERMINATE
| GGE_RESERVED_MAX
| GGE_RESERVED_PAD.

Definition gg_error_code (e : gg_error) : Z :=
  match e with
  | GGE_SUCCESS => 0
  | GGE_OUT_OF_MEMORY => 1
  | GGE_INVALID_PARAMETER => 2
  | GGE_INVALID_STATE => 3
  | GGE_INTERNAL_FAILURE => 4
  | GGE_TERMINATE => 5
  | GGE_RESERVED_MAX => 6
  | GGE_RESERVED_PAD => 0x7FFFFFFF
  end.

Inductive gg_request_status : Set :=
| GG_REQUEST_SUCCESS
| GG_REQUEST_HANDLED
| GG_REQUEST_UNHANDLED
| GG_REQUEST_UNKNOWN
| GG_REQUEST_AGAIN
| GG_REQUEST_RESERVED_MAX
| GG_REQUEST_RESERVED_PAD.

Definition gg_request_status_code (st : gg_request_status) : Z :=
  match st with
  | GG_REQUEST_SUCCESS => 0
  | GG_REQUEST_HANDLED => 1
  | GG_REQUEST_UNHANDLED => 2
  | GG_REQUEST_UNKNOWN => 3
  | GG_REQUEST_AGAIN => 4
  | GG_REQUEST_RESERVED_MAX => 5
  | GG_REQUEST_RESERVED_PAD => 0x7FFFFFFF
  end.

(** The enumerator an [int] stored in a [gg_request_status] field denotes. *)
Definition gg_request_status_of_code (z : Z) : option gg_request_status :=
  if decide (z = 0) then Some GG_REQUEST_SUCCESS
  else if decide (z = 1) then Some GG_REQUEST_HANDLED
  else if decide (z = 2) then Some GG_REQUEST_UNHANDLED
  else if decide (z = 3) then Some GG_REQUEST_UNKNOWN
  else if decide (z = 4) then Some GG_REQUEST_AGAIN
  else if decide (z = 5) then Some GG_REQUEST_RESERVED_MAX
  else if decide (z = 0x7FFFFFFF) then Some GG_REQUEST_RESERVED_PAD
  else None.

Inductive gg_invoke_type : Set :=
| GG_INVOKE_EVENT
| GG_INVOKE_REQUEST_RESPONSE
| GG_INVOKE_RESERVED_MAX
| GG_INVOKE_RESERVED_PAD.

Inductive gg_runtime_opt : Set :=
| GG_RT_OPT_ASYNC
| GG_RT_OPT_RESERVED_PAD.

Definition gg_runtime_opt_code (o : gg_runtime_opt) : Z :=
  match o with
  | GG_RT_OPT_ASYNC => 0x1
  | GG_RT_OPT_RESERVED_PAD => 0x7FFFFFFF
  end.

Inductive gg_queue_full_policy_options : Set :=
| GG_QUEUE_FULL_POLICY_BEST_EFFORT
| GG_QUEUE_FULL_POLICY_ALL_OR_ERROR
| GG_QUEUE_FULL_POLICY_RESERVED_MAX
| GG_QUEUE_FULL_POLICY_RESERVED_PAD.

Inductive gg_log_level : Set :=
| GG_LOG_RESERVED_NOTSET
| GG_LOG_DEBUG
| GG_LOG_INFO
| GG_LOG_WARN
| GG_LOG_ERROR
| GG_LOG_FATAL
| GG_LOG_RESERVED_MAX
| GG_LOG_RESERVED_PAD.

(** The values of the enumerators the header leaves implicit: each is one
    more than the one before it, the first is 0. *)
Definition gg_invoke_type_code (t : gg_invoke_type) : Z :=
  match t with
  | GG_INVOKE_EVENT => 0
  | GG_INVOKE_REQUEST_RESPONSE => 1
  | GG_INVOKE_RESERVED_MAX => 2
  | GG_INVOKE_RESERVED_PAD => 0x7FFFFFFF
  end.

Definition gg_queue_full_policy_options_code
    (p : gg_queue_full_policy_options) : Z :=
  match p with
  | GG_QUEUE_FULL_POLICY_BEST_EFFORT => 0
  | GG_QUEUE_FULL_POLICY_ALL_OR_ERROR => 1
  | GG_QUEUE_FULL_POLICY_RESERVED_MAX => 2
  | GG_QUEUE_FULL_POLICY_RESERVED_PAD => 0x7FFFFFFF
  end.

Definition gg_log_level_code (l : gg_log_level) : Z :=
  match l with
  | GG_LOG_RESERVED_NOTSET => 0
  | GG_LOG_DEBUG => 1
  | GG_LOG_INFO => 2
  | GG_LOG_WARN => 3
  | GG_LOG_ERROR => 4
  | GG_LOG_FATAL => 5
  | GG_LOG_RESERVED_MAX => 6
  | GG_LOG_RESERVED_PAD => 0x7FFFFFFF
  end.

(** The largest value of a 32-bit [int]. *)
Definition INT32_MAX : Z := 2 ^ 31 - 1.

#[global] Instance gg_error_eq_dec : EqDecision gg_error.
Proof. solve_decision. Defined.

#[global] Instance gg_request_status_eq_dec : EqDecision gg_request_status.
Proof. solve_decision. Defined.

#[global] Instance gg_log_level_eq_dec : EqDecision gg_log_level.
Proof. solve_decision. Defined.

#[global] Instance gg_queue_full_policy_options_eq_dec :
  EqDecision gg_queue_full_policy_options.
Proof. solve_decision. Defined.

(** ** Pointers, strings and structs *)

(** An address of the caller's memory; [NULL] is address 0. *)
Definition ptr : Set := Z.
Definition NULL : ptr := 0.

(** The caller's memory: the cells that hold a value, by address. *)
Abbreviation memory := (gmap Z Z).

(** [const char *]: [None] is the null pointer, [Some s] a pointer to the
    null-terminated text [s]. *)
Definition cstr : Set := option string.

(** [typedef struct _gg_request *gg_request]: an opaque pointer. *)
Definition gg_request : Set := ptr.

(** [typedef struct _gg_publish_options *gg_publish_options]. *)
Definition gg_publish_options : Set := ptr.

Record gg_lambda_context : Set := {
  ctx_function_arn : cstr;
  ctx_client_context : cstr
}.

Record gg_invoke_options : Set := {
  function_arn : cstr;
  customer_context : cstr;
  qualifier : cstr;
  type : gg_invoke_type;
  payload : ptr;
  payload_size : Z
}.

(** [result->request_status] of the [gg_request_result] at [result]: the
    struct has this one field, at offset 0. *)
Definition request_status (m : memory) (result : ptr) : option gg_request_status :=
  m !! result ≫= gg_request_status_of_code.

(** ** Calls as computations *)

(** What a call can do outside the caller's memory, as the interface
    documents it: a message reaching a subscriber of a topic, a line reaching
    the log.  The stub has no statement that does either; the type is here so
    that their absence can be stated. *)
Inductive event : Set :=
| EvDeliver (subscriber : Z) (topic : string) (bytes : list Z)
| EvLog (level : gg_log_level) (line : string).

(** A call returns to its caller, or ends the process. *)
Inductive outcome (A : Type) : Type :=
| Return (a : A) (m : memory) (t : list event)
| Exit (status : Z) (t : list event).
Arguments Return {A} a m t.
Arguments Exit {A} status t.

Definition sdk (A : Type) : Type := memory → outcome A.

#[global] Instance sdk_ret : MRet sdk := λ A a m, Return a m [].

#[global] Instance sdk_bind : MBind sdk := λ A B f c m,
  match c m with
  | Return a m' t =>
      match f a m' with
      | Return b m'' t' => Return b m'' (t ++ t')
      | Exit st t' => Exit st (t ++ t')
      end
  | Exit st t => Exit st t
  end.

(** [typedef void ( *gg_lambda_handler)(const gg_lambda_context *cxt)]. *)
Definition gg_lambda_handler : Type := gg_lambda_context → sdk unit.

(** ** The functions of greengrasssdk.c *)

Definition gg_global_init (opt : Z) : sdk gg_error :=
  mret GGE_SUCCESS.

(** [format, ...]: the format string and the variadic arguments. *)
Definition gg_log (level : gg_log_level) (format : cstr) (args : list Z)
  : sdk gg_error :=
  mret GGE_SUCCESS.

Definition gg_request_init (ggreq : ptr) : sdk gg_error :=
  mret GGE_SUCCESS.

Definition gg_request_close (ggreq : gg_request) : sdk gg_error :=
  mret GGE_SUCCESS.

Definition gg_request_read (ggreq : gg_request) (buffer : ptr)
    (buffer_size : Z) (amount_read : ptr) : sdk gg_error :=
  mret GGE_SUCCESS.

Definition gg_runtime_start (handler : gg_lambda_handler) (opt : Z)
  : sdk gg_error :=
  mret GGE_SUCCESS.

Definition gg_lambda_handler_read (buffer : ptr) (buffer_size : Z)
    (amount_read : ptr) : sdk gg_error :=
  mret GGE_SUCCESS.

Definition gg_lambda_handler_write_response (response : ptr)
    (response_size : Z) : sdk gg_error :=
  mret GGE_SUCCESS.

Definition gg_lambda_handler_write_error (error_message : cstr)
  : sdk gg_error :=
  mret GGE_SUCCESS.

Definition gg_get_secret_value (ggreq : gg_request) (secret_id : cstr)
    (version_id : cstr) (version_stage : cstr) (result : ptr)
  : sdk gg_error :=
  mret GGE_SUCCESS.

Definition gg_invoke (ggreq : gg_request) (opts : option gg_invoke_options)
    (result : ptr) : sdk gg_error :=
  mret GGE_SUCCESS.

Definition gg_publish_options_init (opts : ptr) : sdk gg_error :=
  mret GGE_SUCCESS.

Definition gg_publish_options_free (opts : gg_publish_options)
  : sdk gg_error :=
  mret GGE_SUCCESS.

Definition gg_publish_options_set_queue_full_policy
    (opts : gg_publish_options) (policy : gg_queue_full_policy_options)
  : sdk gg_error :=
  mret GGE_SUCCESS.

Definition gg_publish_with_options (ggreq : gg_request) (topic : cstr)
    (payload : ptr) (payload_size : Z) (opts : gg_publish_options)
    (result : ptr) : sdk gg_error :=
  mret GGE_SUCCESS.

Definition gg_publish (ggreq : gg_request) (topic : cstr) (payload : ptr)
    (payload_size : Z) (result : ptr) : sdk gg_error :=
  mret GGE_SUCCESS.

Definition gg_get_thing_shadow (ggreq : gg_request) (thing_name : cstr)
    (result : ptr) : sdk gg_error :=
  mret GGE_SUCCESS.

Definition gg_delete_thing_shadow (ggreq : gg_request) (thing_name : cstr)
    (result : ptr) : sdk gg_error :=
  mret GGE_SUCCESS.

Definition gg_update_thing_shadow (ggreq : gg_request) (thing_name : cstr)
    (update_payload : cstr) (result : ptr) : sdk gg_error :=
  mret GGE_SUCCESS.

(** ** Sequences of calls *)

(** One call of the interface with its arguments, as a client issues it. *)
Inductive call : Type :=
| CGlobalInit (opt : Z)
| CLog (level : gg_log_level) (format : cstr) (args : list Z)
| CRequestInit (ggreq : ptr)
| CRequestClose (ggreq : gg_request)
| CRequestRead (ggreq : gg_request) (buffer : ptr) (buffer_size : Z)
    (amount_read : ptr)
| CRuntimeStart (handler : gg_lambda_handler) (opt : Z)
| CHandlerRead (buffer : ptr) (buffer_size : Z) (amount_read : ptr)
| CHandlerWriteResponse (response : ptr) (response_size : Z)
| CHandlerWriteError (error_message : cstr)
| CGetSecretValue (ggreq : gg_request) (secret_id version_id version_stage : cstr)
    (result : ptr)
| CInvoke (ggreq : gg_request) (opts : option gg_invoke_options) (result : ptr)
| CPublishOptionsInit (opts : ptr)
| CPublishOptionsFree (opts : gg_publish_options)
| CPublishOptionsSetQueueFullPolicy (opts : gg_publish_options)
    (policy : gg_queue_full_policy_options)
| CPublishWithOptions (ggreq : gg_request) (topic : cstr) (payload : ptr)
    (payload_size : Z) (opts : gg_publish_options) (result : ptr)
| CPublish (ggreq : gg_request) (topic : cstr) (payload : ptr)
    (payload_size : Z) (result : ptr)
| CGetThingShadow (ggreq : gg_request) (thing_name : cstr) (result : ptr)
| CDeleteThingShadow (ggreq : gg_request) (thing_name : cstr) (result : ptr)
| CUpdateThingShadow (ggreq : gg_request) (thing_name update_payload : cstr)
    (result : ptr).

Definition exec (c : call) : sdk gg_error :=
  match c with
  | CGlobalInit opt => gg_global_init opt
  | CLog level format args => gg_log level format args
  | CRequestInit ggreq => gg_request_init ggreq
  | CRequestClose ggreq => gg_request_close ggreq
  | CRequestRead ggreq buffer buffer_size amount_read =>
      gg_request_read ggreq buffer buffer_size amount_read
  | CRuntimeStart handler opt => gg_runtime_start handler opt
  | CHandlerRead buffer buffer_size amount_read =>
      gg_lambda_handler_read buffer buffer_size amount_read
  | CHandlerWriteResponse response response_size =>
      gg_lambda_handler_write_response response response_size
  | CHandlerWriteError error_message =>
      gg_lambda_handler_write_error error_message
  | CGetSecretValue ggreq secret_id version_id version_stage result =>
      gg_get_secret_value ggreq secret_id version_id version_stage result
  | CInvoke ggreq opts result => gg_invoke ggreq opts result
  | CPublishOptionsInit opts => gg_publish_options_init opts
  | CPublishOptionsFree opts => gg_publish_options_free opts
  | CPublishOptionsSetQueueFullPolicy opts policy =>
      gg_publish_options_set_queue_full_policy opts policy
  | CPublishWithOptions ggreq topic payload payload_size opts result =>
      gg_publish_with_options ggreq topic payload payload_size opts result
  | CPublish ggreq topic payload payload_size result =>
      gg_publish ggreq topic payload payload_size result
  | CGetThingShadow ggreq thing_name result =>
      gg_get_thing_shadow ggreq thing_name result
  | CDeleteThingShadow ggreq thing_name result =>
      gg_delete_thing_shadow ggreq thing_name result
  | CUpdateThingShadow ggreq thing_name update_payload result =>
      gg_update_thing_shadow ggreq thing_name update_payload result
  end.

(** The calls in order, each on the memory the one before left; the error
    codes they returned, in the same order. *)
Fixpoint run (cs : list call) : sdk (list gg_error) :=
  match cs with
  | [] => mret []
  | c :: cs' => e ← exec c; es ← run cs'; mret (e :: es)
  end.

(** The calls that take the request handle [h] as their [ggreq] argument. *)
Definition uses_handle (h : gg_request) (c : call) : bool :=
  match c with
  | CRequestClose ggreq
  | CRequestRead ggreq _ _ _
  | CGetSecretValue ggreq _ _ _ _
  | CInvoke ggreq _ _
  | CPublishWithOptions ggreq _ _ _ _ _
  | CPublish ggreq _ _ _ _
  | CGetThingShadow ggreq _ _
  | CDeleteThingShadow ggreq _ _
  | CUpdateThingShadow ggreq _ _ _ => bool_decide (ggreq = h)
  | _ => false
  end.

(** The calls that [greengrasssdk.h] notes are for use in the lambda handler
    only. *)
Definition handler_scoped (c : call) : bool :=
  match c with
  | CHandlerRead _ _ _ | CHandlerWriteResponse _ _ | CHandlerWriteError _ => true
  | _ => false
  end.

Definition is_write_response (c : call) : bool :=
  match c with CHandlerWriteResponse _ _ => true | _ => false end.

Definition is_write_error (c : call) : bool :=
  match c with CHandlerWriteError _ => true | _ => false end.

(** [e] is a message reaching [subscriber]. *)
Definition delivered_to (subscriber : Z) (e : event) : bool :=
  match e with
  | EvDeliver s _ _ => bool_decide (s = subscriber)
  | EvLog _ _ => false
  end.

(** Some event of [t] is a message reaching [subscriber]. *)
Definition receives (subscriber : Z) (t : list event) : bool :=
  existsb (delivered_to subscriber) t.

(** The events of an outcome. *)
Definition events {A} (o : outcome A) : list event :=
  match o with
  | Return _ _ t => t
  | Exit _ t => t
  end.

(** The memory an outcome leaves to the caller, when the call returns. *)
Definition memory_after {A} (o : outcome A) : option memory :=
  match o with
  | Return _ m _ => Some m
  | Exit _ _ => None
  end.

(** The value a call returns, when it returns. *)
Definition returned {A} (o : outcome A) : option A :=
  match o with
  | Return a _ _ => Some a
  | Exit _ _ => None
  end.

(** ** Client programs used in the scenarios *)

(** A handler that reports an error to its invoker once, and returns. *)
Definition error_handler (error_message : cstr) : gg_lambda_handler :=
  λ cxt, gg_lambda_handler_write_error error_message ;; mret ().

(** A caller that selects a queue-full policy on its publish options and
    publishes with them. *)
Definition publish_with_policy (policy : gg_queue_full_policy_options)
    (ggreq : gg_request) (topic : cstr) (payload : ptr) (payload_size : Z)
    (opts : gg_publish_options) (result : ptr) : sdk gg_error :=
  gg_publish_options_set_queue_full_policy opts policy ;;
  gg_publish_with_options ggreq topic payload payload_size opts result.

(** [n] reads of a request into the same buffer, then its close. *)
Definition read_then_close (n : nat) (ggreq : gg_request) (buffer : ptr)
    (buffer_size : Z) (amount_read : ptr) : list call :=
  replicate n (CRequestRead ggreq buffer buffer_size amount_read)
    ++ [CRequestClose ggreq].

(** * Properties *)

(** ** The computation monad *)

Lemma sdk_bind_ret {A B} (a : A) (f : A → sdk B) (m : memory) :
  (mret a ≫= f) m = f a m.
Proof.
  unfold mbind, sdk_bind, mret, sdk_ret.
  destruct (f a m); reflexivity.
Qed.

Lemma sdk_bind_return {A B} (c : sdk A) (f : A → sdk B) (a : A) (m : memory) :
  c m = Return a m [] → (c ≫= f) m = f a m.
Proof.
  intros Hc. unfold mbind, sdk_bind. rewrite Hc.
  destruct (f a m); reflexivity.
Qed.

(** ** Single calls and sequences *)

Lemma exec_success (c : call) (m : memory) : exec c m = Return GGE_SUCCESS m [].
Proof. destruct c; reflexivity. Qed.

Lemma run_success (cs : list call) (m : memory) :
  run cs m = Return (replicate (length cs) GGE_SUCCESS) m [].
Proof.
  induction cs as [|c cs IH]; simpl; [reflexivity|].
  rewrite (sdk_bind_return _ _ GGE_SUCCESS) by apply exec_success.
  rewrite (sdk_bind_return _ _ _ _ IH).
  reflexivity.
Qed.

Lemma run_success_at (cs : list call) (m : memory) (i : nat) (c : call) :
  cs !! i = Some c →
  ∃ es, run cs m = Return es m [] ∧ es !! i = Some GGE_SUCCESS.
Proof.
  intros Hi. exists (replicate (length cs) GGE_SUCCESS).
  split; [apply run_success|].
  apply lookup_replicate_2. eapply lookup_lt_Some, Hi.
Qed.

(** ** C1 *)

(** C1: every public function of the stub returns [GGE_SUCCESS] for every
    input, and does nothing else: the caller's memory is the one it passed in
    and no event is performed. *)
Theorem stub_functions_return_success (m : memory) :
  (∀ opt, gg_global_init opt m = Return GGE_SUCCESS m [])
  ∧ (∀ level format args, gg_log level format args m = Return GGE_SUCCESS m [])
  ∧ (∀ ggreq, gg_request_init ggreq m = Return GGE_SUCCESS m [])
  ∧ (∀ ggreq, gg_request_close ggreq m = Return GGE_SUCCESS m [])
  ∧ (∀ ggreq buffer buffer_size amount_read,
       gg_request_read ggreq buffer buffer_size amount_read m
       = Return GGE_SUCCESS m [])
  ∧ (∀ handler opt, gg_runtime_start handler opt m = Return GGE_SUCCESS m [])
  ∧ (∀ buffer buffer_size amount_read,
       gg_lambda_handler_read buffer buffer_size amount_read m
       = Return GGE_SUCCESS m [])
  ∧ (∀ response response_size,
       gg_lambda_handler_write_response response response_size m
       = Return GGE_SUCCESS m [])
  ∧ (∀ error_message,
       gg_lambda_handler_write_error error_message m = Return GGE_SUCCESS m [])
  ∧ (∀ ggreq secret_id version_id version_stage result,
       gg_get_secret_value ggreq secret_id version_id version_stage result m
       = Return GGE_SUCCESS m [])
  ∧ (∀ ggreq opts result, gg_invoke ggreq opts result m = Return GGE_SUCCESS m [])
  ∧ (∀ opts, gg_publish_options_init opts m = Return GGE_SUCCESS m [])
  ∧ (∀ opts, gg_publish_options_free opts m = Return GGE_SUCCESS m [])
  ∧ (∀ opts policy,
       gg_publish_options_set_queue_full_policy opts policy m
       = Return GGE_SUCCESS m [])
  ∧ (∀ ggreq topic payload payload_size opts result,
       gg_publish_with_options ggreq topic payload payload_size opts result m
       = Return GGE_SUCCESS m [])
  ∧ (∀ ggreq topic payload payload_size result,
       gg_publish ggreq topic payload payload_size result m
       = Return GGE_SUCCESS m [])
  ∧ (∀ ggreq thing_name result,
       gg_get_thing_shadow ggreq thing_name result m = Return GGE_SUCCESS m [])
  ∧ (∀ ggreq thing_name result,
       gg_delete_thing_shadow ggreq thing_name result m
       = Return GGE_SUCCESS m [])
  ∧ (∀ ggreq thing_name update_payload result,
       gg_update_thing_shadow ggreq thing_name update_payload result m
       = Return GGE_SUCCESS m []).
Proof. repeat split. Qed.

(** ** C2 *)

(** C2, as stated, fails: a read of handle 7 after its close returns
    [GGE_SUCCESS], not [GGE_INVALID_STATE], and so does a second close. *)
Lemma closed_handle_not_rejected :
  uses_handle 7 (CRequestRead 7 100 16 200) = true
  ∧ run [CRequestClose 7; CRequestRead 7 100 16 200; CRequestClose 7] ∅
    = Return [GGE_SUCCESS; GGE_SUCCESS; GGE_SUCCESS] ∅ []
  ∧ returned ((gg_request_close 7 ;; gg_request_read 7 100 16 200) ∅)
    ≠ Some GGE_INVALID_STATE.
Proof. repeat split. discriminate. Qed.

(** C2, amended: the stub keeps no record of closed handles.  After
    [gg_request_close h], in any sequence of further calls, every call that
    takes [h] returns [GGE_SUCCESS], and the sequence leaves the memory as it
    was. *)
Theorem closed_handle_calls_succeed (m : memory) (h : gg_request)
    (cs : list call) (i : nat) (c : call) :
  cs !! i = Some c →
  uses_handle h c = true →
  ∃ es, run (CRequestClose h :: cs) m = Return es m []
        ∧ es !! S i = Some GGE_SUCCESS.
Proof.
  intros Hi _.
  apply (run_success_at (CRequestClose h :: cs) m (S i) c), Hi.
Qed.

(** A second close of handle 7, after its close and a read of it. *)
Lemma closed_handle_calls_succeed_witness :
  ∃ es, run (CRequestClose 7 :: [CRequestRead 7 100 16 200; CRequestClose 7]) ∅
        = Return es ∅ []
        ∧ es !! 2%nat = Some GGE_SUCCESS.
Proof.
  apply (closed_handle_calls_succeed ∅ 7
           [CRequestRead 7 100 16 200; CRequestClose 7] 1 (CRequestClose 7));
    reflexivity.
Defined.

(** ** C3 *)

Lemma run_read_then_close (m : memory) (n : nat) (ggreq : gg_request)
    (buffer : ptr) (buffer_size : Z) (amount_read : ptr) :
  run (read_then_close n ggreq buffer buffer_size amount_read) m
  = Return (replicate (S n) GGE_SUCCESS) m [].
Proof.
  rewrite run_success. unfold read_then_close.
  rewrite length_app, length_replicate, Nat.add_1_r.
  reflexivity.
Qed.

(** C3, as stated, fails: with 7 in the cell [amount_read] points to, no
    number of reads of handle 1 leaves 0 there. *)
Lemma read_never_signals_end_of_stream :
  ¬ ∃ (n : nat) (es : list gg_error) (m' : memory) (t : list event),
      run (replicate n (CRequestRead 1 100 16 200)) {[200 := 7]}
      = Return es m' t
      ∧ m' !! 200 = Some 0.
Proof.
  intros (n & es & m' & t & Hrun & Hzero).
  rewrite run_success in Hrun.
  injection Hrun as _ <- _.
  rewrite lookup_singleton_eq in Hzero.
  discriminate Hzero.
Qed.

(** C3, amended: [gg_request_read] can be called any number of times on a
    handle; each call returns [GGE_SUCCESS] and none writes [*amount_read],
    which holds after the reads what it held before them; after any number of
    reads [gg_request_close] returns [GGE_SUCCESS]. *)
Theorem reads_succeed_and_handle_closes (m : memory) (n : nat)
    (ggreq : gg_request) (buffer : ptr) (buffer_size : Z) (amount_read : ptr) :
  ∃ m',
    run (read_then_close n ggreq buffer buffer_size amount_read) m
    = Return (replicate n GGE_SUCCESS ++ [GGE_SUCCESS]) m' []
    ∧ m' !! amount_read = m !! amount_read.
Proof.
  exists m. split; [|reflexivity].
  rewrite run_read_then_close.
  f_equal. clear. induction n as [|n IH]; simpl; [reflexivity|].
  f_equal. exact IH.
Qed.

(** ** C4 *)

(** C4, as stated, fails: a publish under the all-or-error policy while
    [result->request_status] holds [GG_REQUEST_UNKNOWN] reaches neither of the
    two subscribers 10 and 11 and leaves the status as it was, which is
    neither of the two outcomes the policy allows. *)
Lemma all_or_error_publish_not_atomic :
  let o := publish_with_policy GG_QUEUE_FULL_POLICY_ALL_OR_ERROR
             1 (Some "hello/world") 100 4 2 300 {[300 := 3]} in
  o = Return GGE_SUCCESS {[300 := 3]} []
  ∧ ¬ ∃ m',
        memory_after o = Some m'
        ∧ ((Forall (λ sub, receives sub (events o) = true) [10; 11]
            ∧ request_status m' 300 = Some GG_REQUEST_SUCCESS)
           ∨ (Forall (λ sub, receives sub (events o) = false) [10; 11]
              ∧ request_status m' 300 = Some GG_REQUEST_AGAIN)).
Proof.
  split; [reflexivity|].
  intros (m' & Hm & [[_ Hst] | [_ Hst]]);
    injection Hm as <-; vm_compute in Hst; discriminate Hst.
Qed.

(** C4, amended: a publish through [gg_publish_with_options] with options
    on which the all-or-error policy was selected returns [GGE_SUCCESS],
    reaches no subscriber, and leaves [result->request_status] as it was. *)
Theorem all_or_error_publish_has_no_effect (m : memory) (ggreq : gg_request)
    (topic : cstr) (payload : ptr) (payload_size : Z)
    (opts : gg_publish_options) (result : ptr) :
  ∃ m' t,
    publish_with_policy GG_QUEUE_FULL_POLICY_ALL_OR_ERROR
      ggreq topic payload payload_size opts result m
    = Return GGE_SUCCESS m' t
    ∧ (∀ sub, receives sub t = false)
    ∧ request_status m' result = request_status m result.
Proof. exists m, []. repeat split. Qed.

(** ** C5 *)

Lemma handler_then_invoke (m : memory) (cs : list call) (ggreq : gg_request)
    (opts : option gg_invoke_options) (result : ptr) :
  (run cs ;; gg_invoke ggreq opts result) m = Return GGE_SUCCESS m [].
Proof. now rewrite (sdk_bind_return _ _ _ _ (run_success cs m)). Qed.

(** C5, as stated, fails: the runtime is started with a handler that writes
    the error "bad input" once, the handler runs, and [gg_invoke] leaves
    [GG_REQUEST_SUCCESS] in [result->request_status], where the caller had
    put it. *)
Lemma invoke_status_not_handled :
  let cxt := {| ctx_function_arn := Some "arn:aws:lambda:f";
                ctx_client_context := None |} in
  let o := (gg_runtime_start (error_handler (Some "bad input")) 0 ;;
            error_handler (Some "bad input") cxt ;;
            gg_invoke 1 None 300) {[300 := 0]} in
  o = Return GGE_SUCCESS {[300 := 0]} []
  ∧ (memory_after o ≫= λ m', request_status m' 300) = Some GG_REQUEST_SUCCESS
  ∧ (memory_after o ≫= λ m', request_status m' 300) ≠ Some GG_REQUEST_HANDLED.
Proof. repeat split. discriminate. Qed.

(** C5, amended: if the handler calls [gg_lambda_handler_write_error] once
    and never [gg_lambda_handler_write_response], then the invoker's
    [gg_invoke] returns [GGE_SUCCESS] and leaves [result->request_status] as
    it was. *)
Theorem invoke_status_unchanged_after_write_error (m : memory)
    (cs : list call) (ggreq : gg_request) (opts : option gg_invoke_options)
    (result : ptr) :
  length (List.filter is_write_error cs) = 1%nat →
  List.filter is_write_response cs = [] →
  ∃ m',
    (run cs ;; gg_invoke ggreq opts result) m = Return GGE_SUCCESS m' []
    ∧ request_status m' result = request_status m result.
Proof.
  intros _ _. exists m. split; [apply handler_then_invoke|reflexivity].
Qed.

(** A handler that reads its input and writes one error, then the invoke. *)
Lemma invoke_status_unchanged_after_write_error_witness :
  ∃ m',
    (run [CHandlerRead 100 16 200; CHandlerWriteError (Some "bad input")] ;;
     gg_invoke 1 None 300) {[300 := 0]}
    = Return GGE_SUCCESS m' []
    ∧ request_status m' 300 = request_status {[300 := 0]} 300.
Proof.
  apply (invoke_status_unchanged_after_write_error {[300 := 0]}
           [CHandlerRead 100 16 200; CHandlerWriteError (Some "bad input")]
           1 None 300);
    reflexivity.
Defined.

(** ** C6 *)

(** C6, as stated, fails: [gg_lambda_handler_read] before any runtime was
    started returns [GGE_SUCCESS], and so does an error written after a
    response within one run of a handler. *)
Lemma handler_calls_not_rejected :
  gg_lambda_handler_read 100 16 200 ∅ = Return GGE_SUCCESS ∅ []
  ∧ run [CRuntimeStart (error_handler None) 0;
         CHandlerRead 100 16 200;
         CHandlerWriteResponse 400 2;
         CHandlerWriteError (Some "late")] ∅
    = Return [GGE_SUCCESS; GGE_SUCCESS; GGE_SUCCESS; GGE_SUCCESS] ∅ []
  ∧ returned ((gg_lambda_handler_write_response 400 2 ;;
               gg_lambda_handler_write_error (Some "late")) ∅)
    ≠ Some GGE_INVALID_STATE.
Proof. repeat split. discriminate. Qed.

(** C6, amended: the stub keeps no runtime state.  In any sequence of
    calls, from any memory, every [gg_lambda_handler_read],
    [gg_lambda_handler_write_response] and [gg_lambda_handler_write_error]
    returns [GGE_SUCCESS], whatever was called before it. *)
Theorem handler_calls_succeed (m : memory) (cs : list call) (i : nat)
    (c : call) :
  cs !! i = Some c →
  handler_scoped c = true →
  ∃ es, run cs m = Return es m [] ∧ es !! i = Some GGE_SUCCESS.
Proof. intros Hi _. eapply run_success_at, Hi. Qed.

(** An error written after a response. *)
Lemma handler_calls_succeed_witness :
  ∃ es, run [CHandlerWriteResponse 400 2; CHandlerWriteError (Some "late")] ∅
        = Return es ∅ []
        ∧ es !! 1%nat = Some GGE_SUCCESS.
Proof.
  apply (handler_calls_succeed ∅
           [CHandlerWriteResponse 400 2; CHandlerWriteError (Some "late")]
           1 (CHandlerWriteError (Some "late")));
    reflexivity.
Defined.

(** ** C7 *)

(** C7, as stated, fails: [gg_log] at level [GG_LOG_FATAL] returns to its
    caller, with [GGE_SUCCESS]; it does not end the process. *)
Lemma fatal_log_returns :
  gg_log GG_LOG_FATAL (Some "shutting down: %d") [3] ∅
  = Return GGE_SUCCESS ∅ []
  ∧ ¬ ∃ status t,
        gg_log GG_LOG_FATAL (Some "shutting down: %d") [3] ∅ = Exit status t.
Proof.
  split; [reflexivity|].
  intros (status & t & H). discriminate H.
Qed.

(** C7, amended: [gg_log] returns [GGE_SUCCESS] to its caller at every
    level, [GG_LOG_FATAL] included, and has no effect at any of them. *)
Theorem log_returns_at_every_level (m : memory) (level : gg_log_level)
    (format : cstr) (args : list Z) :
  gg_log level format args m = Return GGE_SUCCESS m []
  ∧ ∀ status t, gg_log level format args m ≠ Exit status t.
Proof.
  split; [reflexivity|].
  intros status t H. inversion H.
Qed.

(** ** C8 *)

(** C8, as stated, fails: for neither qualifier is there a memory and a
    choice of the other arguments at which [NULL] and the empty string give
    different outcomes. *)
Lemma null_qualifier_not_distinguished :
  (¬ ∃ m ggreq secret_id version_stage result,
       gg_get_secret_value ggreq secret_id None version_stage result m
       ≠ gg_get_secret_value ggreq secret_id (Some "") version_stage result m)
  ∧ (¬ ∃ m ggreq secret_id version_id result,
         gg_get_secret_value ggreq secret_id version_id None result m
         ≠ gg_get_secret_value ggreq secret_id version_id (Some "") result m).
Proof.
  split; intros (m & ggreq & secret_id & v & result & Hne);
    apply Hne; reflexivity.
Qed.

(** C8, amended: the outcome of [gg_get_secret_value] does not depend on
    [version_id] or [version_stage].  For every value of the two qualifiers,
    of the other arguments and of the memory, the call returns [GGE_SUCCESS],
    leaves the memory as it was and performs no event; so any two choices of
    the qualifiers, and in particular [NULL] and the empty string, though
    different arguments, give the same return value, memory and events. *)
Theorem null_and_empty_qualifier_agree (m : memory) (ggreq : gg_request)
    (secret_id version_id version_stage : cstr) (result : ptr) :
  (None : cstr) ≠ Some ""
  ∧ gg_get_secret_value ggreq secret_id version_id version_stage result m
    = Return GGE_SUCCESS m []
  ∧ (∀ version_id' version_stage' : cstr,
       gg_get_secret_value ggreq secret_id version_id version_stage result m
       = gg_get_secret_value ggreq secret_id version_id' version_stage' result m)
  ∧ gg_get_secret_value ggreq secret_id None version_stage result m
    = Return GGE_SUCCESS m []
  ∧ gg_get_secret_value ggreq secret_id (Some "") version_stage result m
    = Return GGE_SUCCESS m []
  ∧ gg_get_secret_value ggreq secret_id version_id None result m
    = Return GGE_SUCCESS m []
  ∧ gg_get_secret_value ggreq secret_id version_id (Some "") result m
    = Return GGE_SUCCESS m []
  ∧ gg_get_secret_value ggreq secret_id None version_stage result m
    = gg_get_secret_value ggreq secret_id (Some "") version_stage result m
  ∧ gg_get_secret_value ggreq secret_id version_id None result m
    = gg_get_secret_value ggreq secret_id version_id (Some "") result m.
Proof.
  split; [discriminate|].
  repeat match goal with |- _ ∧ _ => split end;
    intros; unfold gg_get_secret_value; reflexivity.
Qed.

(** ** C9 *)

(** C9: no function of the stub writes through a pointer it is given.
    After the call every cell of the caller's memory, and so the handle at
    [ggreq], the buffer, [*amount_read], the options handle at [opts] and
    [result->request_status], holds what it held before. *)
Theorem out_parameters_unmodified (m : memory) (a : Z) :
  (∀ ggreq, memory_after (gg_request_init ggreq m) = Some m
            ∧ memory_after (gg_request_init ggreq m) ≫= (.!! ggreq)
              = m !! ggreq)
  ∧ (∀ ggreq buffer buffer_size amount_read,
       let o := gg_request_read ggreq buffer buffer_size amount_read m in
       memory_after o ≫= (.!! amount_read) = m !! amount_read
       ∧ memory_after o ≫= (.!! a) = m !! a)
  ∧ (∀ buffer buffer_size amount_read,
       let o := gg_lambda_handler_read buffer buffer_size amount_read m in
       memory_after o ≫= (.!! amount_read) = m !! amount_read
       ∧ memory_after o ≫= (.!! a) = m !! a)
  ∧ (∀ opts, memory_after (gg_publish_options_init opts m) ≫= (.!! opts)
             = m !! opts)
  ∧ (∀ ggreq opts result,
       memory_after (gg_invoke ggreq opts result m)
         ≫= (λ m', request_status m' result)
       = request_status m result)
  ∧ (∀ ggreq topic payload payload_size result,
       memory_after (gg_publish ggreq topic payload payload_size result m)
         ≫= (λ m', request_status m' result)
       = request_status m result)
  ∧ (∀ ggreq topic payload payload_size opts result,
       memory_after
         (gg_publish_with_options ggreq topic payload payload_size opts result m)
         ≫= (λ m', request_status m' result)
       = request_status m result)
  ∧ (∀ ggreq secret_id version_id version_stage result,
       memory_after
         (gg_get_secret_value ggreq secret_id version_id version_stage result m)
         ≫= (λ m', request_status m' result)
       = request_status m result)
  ∧ (∀ ggreq thing_name result,
       memory_after (gg_get_thing_shadow ggreq thing_name result m)
         ≫= (λ m', request_status m' result)
       = request_status m result)
  ∧ (∀ ggreq thing_name update_payload result,
       memory_after
         (gg_update_thing_shadow ggreq thing_name update_payload result m)
         ≫= (λ m', request_status m' result)
       = request_status m result)
  ∧ (∀ ggreq thing_name result,
       memory_after (gg_delete_thing_shadow ggreq thing_name result m)
         ≫= (λ m', request_status m' result)
       = request_status m result)
  ∧ (∀ c, memory_after (exec c m) = Some m).
Proof.
  repeat split.
  intros c. rewrite exec_success. reflexivity.
Qed.

(** ** C10 *)

(** C10: [gg_publish] and [gg_publish_with_options] with [opts = NULL]
    have the same outcome for every argument and memory: the same return
    value, the same memory and the same events. *)
Theorem publish_is_publish_with_null_options (m : memory) (ggreq : gg_request)
    (topic : cstr) (payload : ptr) (payload_size : Z) (result : ptr) :
  gg_publish ggreq topic payload payload_size result m
  = gg_publish_with_options ggreq topic payload payload_size NULL result m.
Proof. reflexivity. Qed.

(** * The enumerations of the interface *)

Ltac in_goal x := lazymatch goal with |- context [x] => idtac end.

(** Case analysis on the enumerators that the goal mentions. *)
Ltac enum_cases :=
  repeat match goal with
         | x : gg_error |- _ => in_goal x; destruct x
         | x : gg_request_status |- _ => in_goal x; destruct x
         | x : gg_invoke_type |- _ => in_goal x; destruct x
         | x : gg_runtime_opt |- _ => in_goal x; destruct x
         | x : gg_queue_full_policy_options |- _ => in_goal x; destruct x
         | x : gg_log_level |- _ => in_goal x; destruct x
         end.

(** X1: distinct enumerators of an enumeration of the header have distinct
    values, in each of its six enumerations. *)
Theorem enumerator_values_distinct :
  Inj (=) (=) gg_error_code
  ∧ Inj (=) (=) gg_request_status_code
  ∧ Inj (=) (=) gg_invoke_type_code
  ∧ Inj (=) (=) gg_runtime_opt_code
  ∧ Inj (=) (=) gg_queue_full_policy_options_code
  ∧ Inj (=) (=) gg_log_level_code.
Proof.
  repeat split; intros x y; enum_cases; intros Hxy;
    first [reflexivity | discriminate Hxy].
Qed.

(** X2: a [gg_error] is 0 exactly when it is [GGE_SUCCESS], and a
    [gg_request_status] is 0 exactly when it is [GG_REQUEST_SUCCESS]: a test
    of either against zero tells success from every other value. *)
Theorem zero_is_success (e : gg_error) (st : gg_request_status) :
  (gg_error_code e = 0 ↔ e = GGE_SUCCESS)
  ∧ (gg_request_status_code st = 0 ↔ st = GG_REQUEST_SUCCESS).
Proof.
  split; split; enum_cases; intros H;
    first [reflexivity | discriminate H].
Qed.

(** X3: every enumerator of the header has a value between 0 and the
    largest 32-bit [int], and the [..._RESERVED_PAD] enumerator of each
    enumeration has that largest value. *)
Theorem enumerator_values_fit_int32 (e : gg_error) (st : gg_request_status)
    (t : gg_invoke_type) (o : gg_runtime_opt)
    (p : gg_queue_full_policy_options) (l : gg_log_level) :
  (0 ≤ gg_error_code e ≤ gg_error_code GGE_RESERVED_PAD)
  ∧ (0 ≤ gg_request_status_code st
       ≤ gg_request_status_code GG_REQUEST_RESERVED_PAD)
  ∧ (0 ≤ gg_invoke_type_code t ≤ gg_invoke_type_code GG_INVOKE_RESERVED_PAD)
  ∧ (0 ≤ gg_runtime_opt_code o ≤ gg_runtime_opt_code GG_RT_OPT_RESERVED_PAD)
  ∧ (0 ≤ gg_queue_full_policy_options_code p
       ≤ gg_queue_full_policy_options_code GG_QUEUE_FULL_POLICY_RESERVED_PAD)
  ∧ (0 ≤ gg_log_level_code l ≤ gg_log_level_code GG_LOG_RESERVED_PAD)
  ∧ gg_error_code GGE_RESERVED_PAD = INT32_MAX
  ∧ gg_request_status_code GG_REQUEST_RESERVED_PAD = INT32_MAX
  ∧ gg_invoke_type_code GG_INVOKE_RESERVED_PAD = INT32_MAX
  ∧ gg_runtime_opt_code GG_RT_OPT_RESERVED_PAD = INT32_MAX
  ∧ gg_queue_full_policy_options_code GG_QUEUE_FULL_POLICY_RESERVED_PAD
    = INT32_MAX
  ∧ gg_log_level_code GG_LOG_RESERVED_PAD = INT32_MAX.
Proof.
  repeat match goal with |- _ ∧ _ => split end;
    enum_cases; vm_compute; first [reflexivity | intros H; discriminate H].
Qed.

(** X4: in each enumeration that has one, the [..._RESERVED_MAX] enumerator
    is a strict upper bound of exactly the enumerators declared before it: a
    value is below it if and only if it is neither [..._RESERVED_MAX] nor
    [..._RESERVED_PAD]. *)
Theorem reserved_max_bounds_enumerators (e : gg_error)
    (st : gg_request_status) (t : gg_invoke_type)
    (p : gg_queue_full_policy_options) (l : gg_log_level) :
  (gg_error_code e < gg_error_code GGE_RESERVED_MAX
   ↔ e ≠ GGE_RESERVED_MAX ∧ e ≠ GGE_RESERVED_PAD)
  ∧ (gg_request_status_code st < gg_request_status_code GG_REQUEST_RESERVED_MAX
     ↔ st ≠ GG_REQUEST_RESERVED_MAX ∧ st ≠ GG_REQUEST_RESERVED_PAD)
  ∧ (gg_invoke_type_code t < gg_invoke_type_code GG_INVOKE_RESERVED_MAX
     ↔ t ≠ GG_INVOKE_RESERVED_MAX ∧ t ≠ GG_INVOKE_RESERVED_PAD)
  ∧ (gg_queue_full_policy_options_code p
       < gg_queue_full_policy_options_code GG_QUEUE_FULL_POLICY_RESERVED_MAX
     ↔ p ≠ GG_QUEUE_FULL_POLICY_RESERVED_MAX
       ∧ p ≠ GG_QUEUE_FULL_POLICY_RESERVED_PAD)
  ∧ (gg_log_level_code l < gg_log_level_code GG_LOG_RESERVED_MAX
     ↔ l ≠ GG_LOG_RESERVED_MAX ∧ l ≠ GG_LOG_RESERVED_PAD).
Proof.
  repeat match goal with |- _ ∧ _ => split end;
    (split; [intros Hlt; split; intros ->; vm_compute in Hlt; discriminate Hlt
            |enum_cases; intros [Hmax Hpad];
             first [reflexivity | congruence]]).
Qed.

(** * Sequences of calls on the stub *)

(** X6: any finite sequence of calls of the interface, in any order and
    with any arguments, runs to its end: the process is not ended, there is
    one returned code for each call and each is [GGE_SUCCESS], the caller's
    memory is the one the sequence started from, and no event is
    performed. *)
Theorem call_sequence_has_no_effect (cs : list call) (m : memory) :
  ∃ es,
    run cs m = Return es m []
    ∧ length es = length cs
    ∧ Forall (λ e, e = GGE_SUCCESS) es.
Proof.
  exists (replicate (length cs) GGE_SUCCESS).
  split; [apply run_success|].
  split; [apply length_replicate|].
  apply Forall_forall. intros e He.
  apply elem_of_replicate in He. tauto.
Qed.

(** X7: a status that the caller stores in [result->request_status] before
    a sequence of calls is the status read there after it, whichever calls
    the sequence makes and whether or not they are given [result]. *)
Theorem stored_status_survives_calls (cs : list call) (m : memory)
    (result : ptr) (st : gg_request_status) :
  ∃ es m',
    run cs (<[result := gg_request_status_code st]> m) = Return es m' []
    ∧ request_status m' result = Some st.
Proof.
  eexists _, _. split; [apply run_success|].
  unfold request_status. rewrite lookup_insert_eq. simpl.
  destruct st; reflexivity.
Qed.
